(** * Bike-Fantasy (MegaBike): team validation and team creation

    A shallow embedding of
    - [src/frontend/src/components/TeamBuilder.jsx]: [calcTotal] and the
      [validate] closure of the [TeamBuilder] component, and the payload its
      submit button hands to [onSubmit];
    - [src/frontend/src/services/api.js]: [createMyTeam] and [getMyTeam]
      (online mode, [OFFLINE_MODE] false), over an explicit model of the
      Supabase tables they touch. *)

From Stdlib Require Import List Bool ZArith Lia String Ascii Permutation Sorted.
Import ListNotations.
Open Scope Z_scope.

(** ** TeamBuilder.jsx *)

Module TeamBuilder.

(** [const DEFAULT_SLOTS = 12;] *)
Definition DEFAULT_SLOTS : nat := 12.
(** [const BUDGET = 11000;] *)
Definition BUDGET : Z := 11000.

(** A rider object as handed out by [RiderPicker] (a row of the [riders]
    table): [price] and [points] may be absent ([undefined] or [null]). *)
Record rider := mkRider {
  id : string;
  rider_name : string;
  price : option Z;
  points : option Z
}.

(** A slot is [null] or a rider object; objects are truthy, so
    [Boolean(s)] is [true] exactly on [Some _]. *)
Abbreviation slot := (option rider).

(** [r?.price ?? r?.points ?? 0]: [??] falls through only on a missing
    value, so an explicit price of 0 is kept. *)
Definition cost (r : rider) : Z :=
  match price r with
  | Some p => p
  | None => match points r with Some q => q | None => 0 end
  end.

(** [riders.reduce((sum, r) => sum + cost r, 0)] *)
Definition calcTotal (riders : list rider) : Z :=
  fold_left (fun sum r => sum + cost r) riders 0.

(** [slots.filter(Boolean)] *)
Fixpoint filled (slots : list slot) : list rider :=
  match slots with
  | [] => []
  | Some r :: tl => r :: filled tl
  | None :: tl => filled tl
  end.

(** [const total = calcTotal(slots.filter(Boolean));] *)
Definition total (slots : list slot) : Z := calcTotal (filled slots).

(** [const remaining = BUDGET - total;] *)
Definition remaining (slots : list slot) : Z := BUDGET - total slots.

(** [String.prototype.trim] on ASCII text: strips leading and trailing
    space, tab, line feed, vertical tab, form feed and carriage return. *)
Definition is_ws (c : ascii) : bool :=
  let n := nat_of_ascii c in
  (n =? 32)%nat || ((9 <=? n)%nat && (n <=? 13)%nat).

Fixpoint trim_start (s : string) : string :=
  match s with
  | EmptyString => EmptyString
  | String c tl => if is_ws c then trim_start tl else s
  end.

Fixpoint rev_string (s : string) : string :=
  match s with
  | EmptyString => EmptyString
  | String c tl => append (rev_string tl) (String c EmptyString)
  end.

Definition trim (s : string) : string :=
  rev_string (trim_start (rev_string (trim_start s))).

(** The messages [validate] returns, one constructor per [return]. *)
Inductive verror :=
| InvalidName              (* "Team name is required." *)
| IncompleteRoster         (* "Please pick all riders." *)
| DuplicateRider           (* "Each rider must be unique." *)
| BudgetExceeded (by_ : Z). (* `Budget exceeded by ${Math.abs(remaining)}.` *)

(** [new Set(names).size]: the number of distinct names. *)
Fixpoint dedup (l : list string) : list string :=
  match l with
  | [] => []
  | x :: tl => let d := dedup tl in
               if existsb (String.eqb x) d then d else x :: d
  end.

(** [slots.map((s) => s?.rider_name)]; after the completeness check every
    slot is filled, the [None] case keeps the map total. *)
Definition names (slots : list slot) : list string :=
  map (fun s => match s with Some r => rider_name r | None => EmptyString end)
      slots.

(** [validate()], with the component state [teamName] and [slots] made
    explicit; [None] is the [return null] of a valid form. *)
Definition validate (teamName : string) (slots : list slot) : option verror :=
  if (String.length (trim teamName) <? 2)%nat then Some InvalidName
  else if existsb (fun s => match s with None => true | Some _ => false end) slots
  then Some IncompleteRoster
  else if negb (Nat.eqb (List.length (dedup (names slots))) (List.length (names slots)))
  then Some DuplicateRider
  else if total slots >? BUDGET then Some (BudgetExceeded (Z.abs (remaining slots)))
  else None.

(** The payload the submit button builds once [validate] returned null. *)
Record entry := mkEntry { e_id : option string; e_rider_name : option string }.
Record payload := mkPayload { teamName_ : string; riders_ : list entry }.

Definition submit_payload (teamName : string) (slots : list slot) : payload :=
  mkPayload (trim teamName)
    (map (fun s => match s with
                   | Some r => mkEntry (Some (id r)) (Some (rider_name r))
                   | None => mkEntry None None
                   end) slots).

End TeamBuilder.

(** ** api.js: the Supabase tables and [createMyTeam] / [getMyTeam] *)

Module Api.
Import TeamBuilder.

Inductive result (A E : Type) := Ok (a : A) | Err (e : E).
Arguments Ok {A E} a.
Arguments Err {A E} e.

(** A row of [teams]. *)
Record team_row := mkTeam {
  t_id : Z;
  user_id : string;
  team_name : string;
  season_year : Z;
  total_cost : Z;
  t_points : Z
}.

(** A row of [team_riders]; [rider_id] is whatever value the code put
    there, [undefined] included. *)
Record slot_row := mkSlot {
  team_id : Z;
  rider_id : option string;
  slot_no : Z
}.

(** A row of [riders] with its embedded [rider_prices] and [rider_points]
    rows, as [(season_year, value)] pairs. *)
Record rider_row := mkRiderRow {
  r_id : string;
  r_name : string;
  r_prices : list (Z * Z);
  r_points : list (Z * Z)
}.

Record db := mkDb {
  teams : list team_row;
  team_riders : list slot_row;
  riders_tbl : list rider_row;
  next_id : Z   (* the identity the next [teams] insert receives *)
}.

(** Errors a Supabase request can return. *)
Inductive db_error :=
| Conflict       (* unique violation, answered with HTTP 409 *)
| StorageFault.  (* any other failure of the request *)

(** What [createMyTeam] / [getMyTeam] throw. *)
Inductive api_error :=
| NotAuthenticated          (* new Error("Not authenticated") *)
| InvalidToken              (* new Error("Invalid token") *)
| DbError (e : db_error)    (* throw teamErr / throw ridersErr / maybeSingle *)
| TypeError.                (* property read on a null embedded rider *)

(** Storage faults injected into the two writes of [createMyTeam]. *)
Record faults := mkFaults {
  team_insert_fault : bool;
  slots_insert_fault : bool
}.

Definition no_faults : faults := mkFaults false false.

(** The caller's credentials: no stored token ([None]), a token without a
    [sub] claim ([Some None]) or a token for user [u] ([Some (Some u)]). *)
Definition auth := option (option string).

Definition has_team (d : db) (u : string) (season : Z) : bool :=
  existsb (fun t => String.eqb (user_id t) u && Z.eqb (season_year t) season)
          (teams d).

(** Modelled from the spec: the storage-side uniqueness constraint on
    [teams (user_id, season_year)], whose schema is not part of the
    sources; sections 4.2 (step 3) and 6 say the store rejects a second team for the
    same (user, season) and that the rejection is reported as a conflict. *)
Definition insert_team (f : faults) (d : db) (row : team_row)
  : result team_row db_error * db :=
  if team_insert_fault f then (Err StorageFault, d)
  else if has_team d (user_id row) (season_year row) then (Err Conflict, d)
  else
    let t := {| t_id := next_id d; user_id := user_id row;
                team_name := team_name row; season_year := season_year row;
                total_cost := total_cost row; t_points := t_points row |} in
    (Ok t, {| teams := teams d ++ [t]; team_riders := team_riders d;
              riders_tbl := riders_tbl d; next_id := next_id d + 1 |}).

(** [.from("team_riders").insert(riderInserts)]: one request, one SQL
    statement, so the rows are stored all together or not at all. *)
Definition insert_slots (f : faults) (d : db) (rows : list slot_row)
  : option db_error * db :=
  if slots_insert_fault f then (Some StorageFault, d)
  else (None, {| teams := teams d; team_riders := team_riders d ++ rows;
                 riders_tbl := riders_tbl d; next_id := next_id d |}).

(** [.from("riders").select("id").eq("rider_name", name).maybeSingle()]:
    [data] is the row when exactly one matches; none, or several (an error
    the code ignores), leave [data] null. An [undefined] name is sent as the
    text "undefined". *)
Definition lookup_rider_id (d : db) (name : option string) : option string :=
  let n := match name with Some s => s | None => "undefined"%string end in
  match filter (fun r => String.eqb (r_name r) n) (riders_tbl d) with
  | [r] => Some (r_id r)
  | _ => None
  end.

(** [!riderInserts[i].rider_id]: [undefined], [null] and [""] are falsy. *)
Definition falsy (o : option string) : bool :=
  match o with None => true | Some s => String.eqb s "" end.

(** [payload.riders.map((r, idx) => ({ team_id, rider_id: r.id, slot: idx + 1 }))] *)
Fixpoint rider_inserts (tid : Z) (idx : Z) (es : list entry) : list slot_row :=
  match es with
  | [] => []
  | e :: tl => mkSlot tid (e_id e) (idx + 1) :: rider_inserts tid (idx + 1) tl
  end.

(** One turn of the [for] loop over [riderInserts]. *)
Definition resolve_one (d : db) (ins : slot_row) (e : entry) : slot_row :=
  if falsy (rider_id ins) then
    match lookup_rider_id d (e_rider_name e) with
    | Some rid => mkSlot (team_id ins) (Some rid) (slot_no ins)
    | None => ins
    end
  else ins.

Fixpoint resolve_all (d : db) (ins : list slot_row) (es : list entry)
  : list slot_row :=
  match ins, es with
  | i :: itl, e :: etl => resolve_one d i e :: resolve_all d itl etl
  | _, _ => ins
  end.

(** [const season = 2025;] *)
Definition season : Z := 2025.

(** [createMyTeam(payload)]; the resulting store is returned with the
    outcome. *)
Definition createMyTeam (f : faults) (a : auth) (p : payload) (d : db)
  : result team_row api_error * db :=
  match a with
  | None => (Err NotAuthenticated, d)
  | Some None => (Err InvalidToken, d)
  | Some (Some userId) =>
      let row := {| t_id := 0; user_id := userId; team_name := teamName_ p;
                    season_year := season; total_cost := 0; t_points := 0 |} in
      match insert_team f d row with
      | (Err e, d1) => (Err (DbError e), d1)
      | (Ok team, d1) =>
          let ins := rider_inserts (t_id team) 0 (riders_ p) in
          let ins' := resolve_all d1 ins (riders_ p) in
          match insert_slots f d1 ins' with
          | (Some e, d2) => (Err (DbError e), d2)
          | (None, d2) => (Ok team, d2)
          end
      end
  end.

(** One rider of the object [getMyTeam] returns (the descriptive columns
    [team_name], [nationality] and [active] are left out). *)
Record read_rider := mkReadRider {
  rr_id : string;
  rr_rider_name : string;
  rr_price : Z;
  rr_points : Z
}.

Record my_team := mkMyTeam {
  mt_id : Z;
  mt_teamName : string;
  totalPrice : Z;
  mt_points : Z;
  mt_riders : list read_rider
}.

(** [arr?.find(p => p.season_year === season)], then [.price] or 0. *)
Definition season_value (season : Z) (l : list (Z * Z)) : Z :=
  match find (fun p => Z.eqb (fst p) season) l with
  | Some p => snd p
  | None => 0
  end.

(** The embedded [riders(...)] object of a [team_riders] row: null when the
    row's [rider_id] matches no rider. *)
Definition embedded_rider (d : db) (tr : slot_row) : option rider_row :=
  match rider_id tr with
  | None => None
  | Some rid => find (fun r => String.eqb (r_id r) rid) (riders_tbl d)
  end.

(** The [map] over [teamRiders]: reading [r.id] on a null [r] throws. *)
Fixpoint format_riders (d : db) (trs : list slot_row)
  : result (list read_rider) api_error :=
  match trs with
  | [] => Ok []
  | tr :: tl =>
      match embedded_rider d tr with
      | None => Err TypeError
      | Some r =>
          match format_riders d tl with
          | Err e => Err e
          | Ok rs => Ok (mkReadRider (r_id r) (r_name r)
                           (season_value season (r_prices r))
                           (season_value season (r_points r)) :: rs)
          end
      end
  end.

(** [getMyTeam()]: [Ok None] is [return null]. The [team_riders] select
    has no [order], the rows are taken in table order. *)
Definition getMyTeam (a : auth) (d : db) : result (option my_team) api_error :=
  match a with
  | None | Some None => Ok None
  | Some (Some userId) =>
      match filter (fun t => String.eqb (user_id t) userId &&
                             Z.eqb (season_year t) season) (teams d) with
      | [] => Ok None
      | [team] =>
          let trs := filter (fun tr => Z.eqb (team_id tr) (t_id team))
                            (team_riders d) in
          match format_riders d trs with
          | Err e => Err e
          | Ok rs => Ok (Some (mkMyTeam (t_id team) (team_name team)
                                 (total_cost team) (t_points team) rs))
          end
      | _ => Err (DbError StorageFault)   (* maybeSingle on several rows *)
      end
  end.

End Api.

(** ** The checks of [validate] as the spec lists them (section 4.1) *)

Module Checks.
Import TeamBuilder.

(** 1. team name length >= 2 after trimming *)
Definition name_ok (teamName : string) : bool :=
  (2 <=? String.length (trim teamName))%nat.

(** 2. every slot occupied *)
Definition all_filled (slots : list slot) : bool :=
  forallb (fun s => match s with Some _ => true | None => false end) slots.

(** 3. display names mutually distinct *)
Definition names_distinct (slots : list slot) : bool :=
  Nat.eqb (List.length (dedup (names slots))) (List.length (names slots)).

(** 4. summed cost within the ceiling *)
Definition within_budget (slots : list slot) : bool := total slots <=? BUDGET.

(** Checks run in order; the first failing one gives the error. *)
Fixpoint first_failure (checks : list (bool * verror)) : option verror :=
  match checks with
  | [] => None
  | (ok, e) :: tl => if ok then first_failure tl else Some e
  end.

Definition spec_checks (teamName : string) (slots : list slot)
  : list (bool * verror) :=
  [(name_ok teamName, InvalidName);
   (all_filled slots, IncompleteRoster);
   (names_distinct slots, DuplicateRider);
   (within_budget slots, BudgetExceeded (total slots - BUDGET))].

End Checks.

(** ** Team-creation properties: what the statements talk about *)

Module Creation.
Import TeamBuilder Api.

(** The rider id the [for] loop leaves for an entry: its own id when
    truthy, else the id found by name, else the falsy id unchanged. *)
Definition resolved_id (d : db) (e : entry) : option string :=
  if falsy (e_id e) then
    match lookup_rider_id d (e_rider_name e) with
    | Some rid => Some rid
    | None => e_id e
    end
  else e_id e.

(** The (user, season) key of every team row. *)
Definition team_keys (d : db) : list (string * Z) :=
  map (fun t => (user_id t, season_year t)) (teams d).

(** At most one team per (user, season). *)
Definition unique_teams (d : db) : Prop := NoDup (team_keys d).

(** A sequence of [createMyTeam] calls, each with its own credentials,
    payload and injected faults, run against the store in turn. *)
Fixpoint run (calls : list (faults * auth * payload)) (d : db) : db :=
  match calls with
  | [] => d
  | (f, a, p) :: tl => run tl (snd (createMyTeam f a p d))
  end.

End Creation.

(** ** Concrete inputs *)

Module Samples.
Import TeamBuilder Api.

Definition tags : list string :=
  ["01"; "02"; "03"; "04"; "05"; "06"; "07"; "08"; "09"; "10"; "11"; "12"]%string.

Definition sample_rider (tag : string) (p : Z) : rider :=
  mkRider (String.append "r" tag) (String.append "R" tag) (Some p) None.

(** Twelve riders priced 900 each: total 10800, remaining 200. *)
Definition roster_900 : list slot := map (fun t => Some (sample_rider t 900)) tags.

(** The first rider replaced by one priced 1200: total 11100. *)
Definition roster_over : list slot :=
  Some (sample_rider "13" 1200) :: tl roster_900.

(** Slots 1 and 2 hold different riders ("r99", "r02") both named "R02". *)
Definition roster_dup : list slot :=
  Some (mkRider "r99" "R02" (Some 900) None) :: tl roster_900.

(** The component's initial state: [Array(DEFAULT_SLOTS).fill(null)]. *)
Definition empty_roster : list slot := repeat None DEFAULT_SLOTS.

(** Eleven riders picked, the last slot still empty. *)
Definition roster_11 : list slot := removelast roster_900 ++ [None].

Definition sample_team_name : string := "Team Gilbert".

(** A store holding the twelve riders, priced 900 for 2025, and no team. *)
Definition sample_db : db :=
  mkDb [] []
    (map (fun t => mkRiderRow (String.append "r" t) (String.append "R" t)
                              [(2025, 900)] [(2025, 0)]) tags)
    1.

Definition sample_payload : payload := submit_payload sample_team_name roster_900.

(** A payload whose second entry has no id and a name no rider has. *)
Definition unresolved_payload : payload :=
  mkPayload sample_team_name
    (match riders_ sample_payload with
     | e1 :: _ :: tl => e1 :: mkEntry None (Some "Nobody"%string) :: tl
     | l => l
     end).

End Samples.

(** ** More of TeamBuilder.jsx, api.js and MyTeamPage *)

Module Builder.
Import TeamBuilder.

(** [setSlot(index, rider)]: [next = [...slots]; next[index] = rider].
    The component only calls it with the index of a rendered slot
    ([slots.map((r, idx) => ...)]), so the index is always in range. *)
Fixpoint setSlot (slots : list slot) (index : nat) (r : slot) : list slot :=
  match slots, index with
  | [], _ => []
  | _ :: tl, O => r :: tl
  | s :: tl, S i => s :: setSlot tl i r
  end.

(** The initial state [Array(DEFAULT_SLOTS).fill(null)] after a sequence
    of picks [(index, rider)]. *)
Definition picks_state (picks : list (nat * slot)) : list slot :=
  fold_left (fun st p => setSlot st (fst p) (snd p)) picks
            (repeat None DEFAULT_SLOTS).

End Builder.

(** Stable insertion sort, the model of an [.order(...)] clause: rows with
    equal keys keep their table order. [le x y] says [x] may come first. *)
Module OrderBy.

Fixpoint insert_by {A : Type} (le : A -> A -> bool) (x : A) (l : list A)
  : list A :=
  match l with
  | [] => [x]
  | y :: tl => if le x y then x :: y :: tl else y :: insert_by le x tl
  end.

Fixpoint sort_by {A : Type} (le : A -> A -> bool) (l : list A) : list A :=
  match l with
  | [] => []
  | x :: tl => insert_by le x (sort_by le tl)
  end.

(** [.order(key, { ascending: false })] and [{ ascending: true }]. *)
Definition desc_by {A : Type} (key : A -> Z) (x y : A) : bool := key y <=? key x.
Definition asc_by {A : Type} (key : A -> Z) (x y : A) : bool := key x <=? key y.

End OrderBy.

(** [getLatestRace] / [getNextRace]; dates are day numbers, [today] is the
    UTC date of [new Date().toISOString().slice(0, 10)]. *)
Module Races.
Import OrderBy.

Record race := mkRace { race_id : Z; race_name : string; race_date : Z }.

(** A [race_results] row with its embedded [riders(rider_name, team_name)]
    object, null when the rider is missing. *)
Record race_result := mkRaceResult {
  res_race_id : Z;
  rank : Z;
  points_awarded : Z;
  res_rider : option (string * option string)
}.

Record result_view := mkResultView {
  rv_rider : option string;   (* r.riders?.rider_name *)
  rv_team : string;           (* r.riders?.team_name ?? "" *)
  rv_points : Z;
  rv_rank : Z
}.

Record latest_view := mkLatestView {
  lv_name : string; lv_date : Z; lv_results : list result_view }.

Record next_view := mkNextView { nv_name : string; nv_date : Z }.

Definition view_result (r : race_result) : result_view :=
  mkResultView
    (option_map fst (res_rider r))
    (match res_rider r with
     | Some (_, Some tn) => tn
     | _ => ""%string
     end)
    (points_awarded r) (rank r).

(** [.from("races").lte("race_date", today).order("race_date", desc)
    .limit(1).maybeSingle()], then the results of that race
    [.order("rank", asc).limit(50)]. *)
Definition getLatestRace (today : Z) (races : list race)
    (results : list race_result) : option latest_view :=
  match firstn 1 (sort_by (desc_by race_date)
                    (filter (fun r => race_date r <=? today) races)) with
  | [] => None
  | race :: _ =>
      let rs := firstn 50 (sort_by (asc_by rank)
                  (filter (fun x => res_race_id x =? race_id race) results)) in
      Some (mkLatestView (race_name race) (race_date race) (map view_result rs))
  end.

(** [.from("races").gt("race_date", today).order("race_date", asc)
    .limit(1).maybeSingle()] *)
Definition getNextRace (today : Z) (races : list race) : option next_view :=
  match firstn 1 (sort_by (asc_by race_date)
                    (filter (fun r => today <? race_date r) races)) with
  | [] => None
  | race :: _ => Some (mkNextView (race_name race) (race_date race))
  end.

End Races.

(** [getCurrentLeaderboard], [getTeamById] and the [MyTeamPage] view. *)
Module Views.
Import TeamBuilder Api OrderBy.

(** The [users] rows the [users(display_name)] embeddings read, as
    [(id, display_name)]. *)
Definition owner_name (users : list (string * string)) (uid : string)
  : option string :=
  option_map snd (find (fun u => String.eqb (fst u) uid) users).

Record board_entry := mkBoardEntry {
  be_id : Z; be_teamName : string; be_points : Z; be_ownerName : option string }.

(** [.from("teams").eq("season_year", 2025).order("points", desc)
    .limit(200)], mapped to [{ id, teamName, points, ownerName }]. *)
Definition getCurrentLeaderboard (users : list (string * string)) (d : db)
  : list board_entry :=
  map (fun t => mkBoardEntry (t_id t) (team_name t) (t_points t)
                             (owner_name users (user_id t)))
      (firstn 200 (sort_by (desc_by t_points)
                     (filter (fun t => Z.eqb (season_year t) season) (teams d)))).

Record team_view := mkTeamView {
  tv_id : Z; tv_teamName : string; tv_ownerName : option string;
  tv_points : Z; tv_riders : list read_rider }.

(** [getTeamById(teamId)]: [.eq("id", teamId).single()], whose error
    (no row or several) gives [return null]. *)
Definition getTeamById (users : list (string * string)) (teamId : Z) (d : db)
  : result (option team_view) api_error :=
  match filter (fun t => Z.eqb (t_id t) teamId) (teams d) with
  | [team] =>
      let trs := filter (fun tr => Z.eqb (team_id tr) (t_id team))
                        (team_riders d) in
      match format_riders d trs with
      | Err e => Err e
      | Ok rs => Ok (Some (mkTeamView (t_id team) (team_name team)
                             (owner_name users (user_id team)) (t_points team) rs))
      end
  | _ => Ok None
  end.

(** What [MyTeamPage] renders: the access-code form without a token, the
    summary when [getMyTeam()] fulfilled with a team, the builder when it
    fulfilled with null or was rejected ([Promise.allSettled]). *)
Inductive view := AccessCodeView | SummaryView (t : my_team) | BuilderView.

Definition myTeamPageView (a : auth) (d : db) : view :=
  match a with
  | None => AccessCodeView
  | Some _ =>
      match getMyTeam a d with
      | Ok (Some t) => SummaryView t
      | _ => BuilderView
      end
  end.

End Views.

(** ** api/verify-code.js: the access-code login handler *)

Module VerifyCode.
Import TeamBuilder.

(** A row of [access_codes]. *)
Record access_code := mkCode { ac_id : Z; code : string; is_active : bool }.

(** A row of [users]. *)
Record user_row := mkUser {
  u_id : Z;
  access_code_id : Z;
  display_name : string;
  profile_image_url : option string
}.

Record vstore := mkVStore {
  access_codes : list access_code;
  users : list user_row;
  next_user_id : Z   (* the id the next [users] insert receives *)
}.

(** [process.env.SUPABASE_URL], [SUPABASE_SERVICE_ROLE_KEY],
    [SUPABASE_JWT_SECRET]. *)
Record env := mkEnv {
  supabase_url : option string;
  service_key : option string;
  jwt_secret : option string
}.

(** Request failures of the three Supabase calls. *)
Record vfaults := mkVFaults {
  code_lookup_fault : bool;
  user_lookup_fault : bool;
  user_insert_fault : bool
}.

Definition no_vfaults : vfaults := mkVFaults false false false.

(** [req.method] and [req.body.accessCode] (a string or [undefined]). *)
Record request := mkRequest { method : string; accessCode : option string }.

(** The claims [jwt.sign] signs; the signature itself is not modelled. *)
Record jwt_claims := mkClaims { aud : string; role : string; sub : Z; exp : Z }.

Inductive body :=
| ErrorBody (error : string)
| TokenBody (token : jwt_claims) (id : Z) (displayName : string)
            (profileImageUrl : option string).

Definition response : Type := (Z * body)%type.

(** JavaScript truthiness of an optional string. *)
Definition truthy (o : option string) : bool :=
  match o with None => false | Some s => negb (String.eqb s "") end.

(** Step 4 and 5: sign the token for [user] and answer 200. *)
Definition sign_and_reply (e : env) (now_ms : Z) (user : user_row) (s : vstore)
  : response * vstore :=
  if negb (truthy (jwt_secret e)) then
    ((500, ErrorBody "Server configuration error: Missing JWT Secret"), s)
  else
    ((200, TokenBody (mkClaims "authenticated" "authenticated" (u_id user)
                        (now_ms / 1000 + 60 * 60 * 24 * 7))
                     (u_id user) (display_name user) (profile_image_url user)),
     s).

(** [handler(req, res)]: the response sent, with the store afterwards. *)
Definition handler (f : vfaults) (e : env) (now_ms : Z) (req : request)
    (s : vstore) : response * vstore :=
  if negb (String.eqb (method req) "POST") then
    ((405, ErrorBody "Method not allowed"), s)
  else if negb (truthy (accessCode req)) then
    ((400, ErrorBody "Access code is required"), s)
  else if negb (truthy (supabase_url e) && truthy (service_key e)) then
    ((500, ErrorBody "Server configuration error: Missing Credentials"), s)
  else
    let c := trim (match accessCode req with Some a => a | None => ""%string end) in
    if code_lookup_fault f then ((500, ErrorBody "Database error"), s) else
    match filter (fun r => String.eqb (code r) c) (access_codes s) with
    | [] => ((401, ErrorBody "Invalid access code"), s)
    | [codeRow] =>
        if negb (is_active codeRow) then ((401, ErrorBody "Invalid access code"), s)
        else if user_lookup_fault f then
          ((500, ErrorBody "Database error (user lookup)"), s)
        else
          match filter (fun u => Z.eqb (access_code_id u) (ac_id codeRow)) (users s) with
          | [user] => sign_and_reply e now_ms user s
          | [] =>
              if user_insert_fault f then ((500, ErrorBody "Failed to create user"), s)
              else
                let user := mkUser (next_user_id s) (ac_id codeRow) c None in
                sign_and_reply e now_ms user
                  (mkVStore (access_codes s) (users s ++ [user]) (next_user_id s + 1))
          | _ => ((500, ErrorBody "Database error (user lookup)"), s)
          end
    | _ => ((500, ErrorBody "Database error"), s)   (* maybeSingle: several rows *)
    end.

(** The row [handler] inserts for a code's first login, and the store
    after the insert. *)
Definition new_user (s : vstore) (cr : access_code) (c : string) : user_row :=
  mkUser (next_user_id s) (ac_id cr) c None.

Definition with_user (s : vstore) (u : user_row) : vstore :=
  mkVStore (access_codes s) (users s ++ [u]) (next_user_id s + 1).


End VerifyCode.

(** Concrete inputs for the functions above. *)
Module MoreSamples.
Import TeamBuilder Api Samples Races Views VerifyCode.
Local Open Scope string_scope.



(** The store after user "u1" saved the sample roster. *)
Definition created_db : db :=
  snd (createMyTeam no_faults (Some (Some "u1"%string)) sample_payload sample_db).

(** The store after user "u1" saved a roster whose second rider did not
    resolve: its [rider_id] is null. *)
Definition blocked_db : db :=
  snd (createMyTeam no_faults (Some (Some "u1"%string)) unresolved_payload sample_db).

Definition sample_team_row : team_row := mkTeam 1 "u1" "Team Gilbert" 2025 0 0.

(** What [getMyTeam] returns for "u1" on [created_db]. *)
Definition created_my_team : my_team :=
  match getMyTeam (Some (Some "u1"%string)) created_db with
  | Ok (Some mt) => mt
  | _ => mkMyTeam 0 "" 0 0 []
  end.

(** One active and one deactivated code, no user yet. *)
Definition sample_vstore : vstore :=
  mkVStore [mkCode 1 "GILBERT" true; mkCode 2 "OLD" false] [] 1.

Definition sample_env : env :=
  mkEnv (Some "https://db.example") (Some "service-key") (Some "jwt-secret").

Definition no_secret_env : env :=
  mkEnv (Some "https://db.example") (Some "service-key") None.

(** The code typed with surrounding spaces, and typed exactly. *)
Definition login_req : request := mkRequest "POST" (Some "  GILBERT ").
Definition login_req_exact : request := mkRequest "POST" (Some "GILBERT").

Definition sample_now_ms : Z := 1760000000000.

(** Picks in the builder: slot 0, slot 3, slot 0 cleared, slot 3 again. *)
Definition sample_picks : list (nat * slot) :=
  [(0%nat, Some (sample_rider "01" 900)); (3%nat, Some (sample_rider "02" 900));
   (0%nat, None); (3%nat, Some (sample_rider "03" 900))].

End MoreSamples.

Import TeamBuilder Api Checks Creation Samples Builder OrderBy Races Views.
Import MoreSamples.

Example validate_roster_900 :
  validate sample_team_name roster_900 = None /\ remaining roster_900 = 200.
Proof. vm_compute. auto. Qed.

Example validate_roster_over :
  validate sample_team_name roster_over = Some (BudgetExceeded 100).
Proof. vm_compute. reflexivity. Qed.

Example validate_roster_dup :
  validate sample_team_name roster_dup = Some DuplicateRider.
Proof. vm_compute. reflexivity. Qed.

Example validate_roster_11 :
  validate sample_team_name roster_11 = Some IncompleteRoster.
Proof. vm_compute. reflexivity. Qed.

Example validate_short_name :
  validate "  A  " roster_900 = Some InvalidName.
Proof. vm_compute. reflexivity. Qed.

Example create_sample :
  match createMyTeam no_faults (Some (Some "u1"%string)) sample_payload sample_db with
  | (Ok t, d) => (t_id t =? 1) && (season_year t =? 2025)
                 && (List.length (team_riders d) =? 12)%nat
  | _ => false
  end = true.
Proof. vm_compute. reflexivity. Qed.

(** ** Lemmas on the validation helpers *)

Lemma existsb_empty_slot (s : list slot) :
  existsb (fun s => match s with None => true | Some _ => false end) s
  = negb (all_filled s).
Proof.
  induction s as [|[r|] tl IH]; simpl; auto.
Qed.

(** Claim C7: [validate] runs the name, completeness, uniqueness and budget
    checks in that order and returns the error of the first one that
    fails: its result is exactly [first_failure] over the spec's ordered
    list of checks, so later checks play no part once one has failed. *)
Theorem validate_check_order (teamName : string) (slots : list slot) :
  validate teamName slots = first_failure (spec_checks teamName slots).
Proof.
  unfold validate, spec_checks, name_ok, within_budget, names_distinct.
  rewrite existsb_empty_slot, Nat.leb_antisym.
  destruct (String.length (trim teamName) <? 2)%nat; cbn [negb first_failure];
    [reflexivity|].
  destruct (all_filled slots); cbn [negb first_failure]; [|reflexivity].
  destruct (Nat.eqb _ _); cbn [negb first_failure]; [|reflexivity].
  unfold remaining.
  destruct (total slots >? BUDGET) eqn:Hgt.
  - apply Z.gtb_lt in Hgt.
    replace (total slots <=? BUDGET) with false by (symmetry; apply Z.leb_gt; lia).
    cbn [first_failure]. f_equal. f_equal. lia.
  - rewrite Z.gtb_ltb in Hgt. apply Z.ltb_ge in Hgt.
    replace (total slots <=? BUDGET) with true by (symmetry; apply Z.leb_le; lia).
    reflexivity.
Qed.

Lemma In_dedup (x : string) (l : list string) : In x (dedup l) <-> In x l.
Proof.
  revert x; induction l as [|y tl IH]; intros x; simpl; [tauto|].
  destruct (existsb (String.eqb y) (dedup tl)) eqn:E.
  - apply existsb_exists in E as [z [Hz Hyz]].
    apply String.eqb_eq in Hyz; subst z.
    apply IH in Hz. rewrite IH. split; [tauto|].
    intros [<-|H]; auto.
  - simpl. rewrite IH. tauto.
Qed.

Lemma dedup_length_le (l : list string) :
  (List.length (dedup l) <= List.length l)%nat.
Proof.
  induction l as [|y tl IH]; simpl; [lia|].
  destruct (existsb (String.eqb y) (dedup tl)); simpl; lia.
Qed.

Lemma dedup_length_NoDup (l : list string) :
  List.length (dedup l) = List.length l -> NoDup l.
Proof.
  induction l as [|y tl IH]; simpl; intros H; [constructor|].
  destruct (existsb (String.eqb y) (dedup tl)) eqn:E.
  - pose proof (dedup_length_le tl). lia.
  - simpl in H. constructor; [|apply IH; lia].
    intros Hin. apply In_dedup in Hin.
    assert (existsb (String.eqb y) (dedup tl) = true) as E'
      by (apply existsb_exists; exists y; split; auto; apply String.eqb_refl).
    congruence.
Qed.

Lemma all_filled_length (s : list slot) :
  all_filled s = true -> List.length (filled s) = List.length s.
Proof.
  induction s as [|[r|] tl IH]; simpl; intros H;
    [reflexivity | rewrite IH; auto | discriminate].
Qed.

(** Claim C5 (amended): once the name, completeness and uniqueness checks
    pass, a roster whose summed cost (price, else points, else 0) exceeds
    11000 fails with [BudgetExceeded] carrying [sum - 11000]; and a roster
    whose sum is at most 11000 never fails with [BudgetExceeded]. *)
Theorem validate_budget_overage (teamName : string) (slots : list slot) :
  (name_ok teamName = true -> all_filled slots = true ->
   names_distinct slots = true -> BUDGET < total slots ->
   validate teamName slots = Some (BudgetExceeded (total slots - BUDGET)))
  /\ (total slots <= BUDGET ->
      forall n, validate teamName slots <> Some (BudgetExceeded n)).
Proof.
  rewrite validate_check_order. unfold spec_checks, within_budget. split.
  - intros Hn Hf Hd Hb. rewrite Hn, Hf, Hd. cbn [first_failure].
    replace (total slots <=? BUDGET) with false by (symmetry; apply Z.leb_gt; lia).
    reflexivity.
  - intros Hb n.
    replace (total slots <=? BUDGET) with true by (symmetry; apply Z.leb_le; lia).
    destruct (name_ok teamName), (all_filled slots), (names_distinct slots);
      cbn [first_failure]; discriminate.
Qed.

Lemma validate_budget_overage_witness :
  validate sample_team_name roster_over = Some (BudgetExceeded 100)
  /\ validate sample_team_name roster_900 <> Some (BudgetExceeded 0).
Proof.
  split.
  - rewrite (proj1 (validate_budget_overage sample_team_name roster_over)
               eq_refl eq_refl eq_refl ltac:(vm_compute; reflexivity)).
    vm_compute. reflexivity.
  - apply (proj2 (validate_budget_overage sample_team_name roster_900)).
    vm_compute. discriminate.
Defined.

(** The over-budget roster with the initial empty team name: [validate]
    reports the name, not the budget. *)
Lemma validate_budget_overage_counterexample :
  BUDGET < total roster_over
  /\ validate "" roster_over = Some InvalidName.
Proof. vm_compute. split; reflexivity. Qed.

(** Claim C6 (amended): for a roster with a valid team name and all slots
    filled, if two different slots hold riders with the same display name
    then [validate] fails with [DuplicateRider], whatever the riders' ids. *)
Theorem validate_duplicate_name (teamName : string) (slots : list slot)
    (i j : nat) (r1 r2 : rider)
    (Hn : name_ok teamName = true) (Hf : all_filled slots = true)
    (Hij : i <> j)
    (Hi : nth_error slots i = Some (Some r1))
    (Hj : nth_error slots j = Some (Some r2))
    (Hname : rider_name r1 = rider_name r2) :
  validate teamName slots = Some DuplicateRider.
Proof.
  rewrite validate_check_order. unfold spec_checks. rewrite Hn, Hf.
  cbn [first_failure].
  destruct (names_distinct slots) eqn:Hd; [|reflexivity].
  exfalso. apply Nat.eqb_eq, dedup_length_NoDup in Hd.
  apply Hij. eapply NoDup_nth_error; [exact Hd| |].
  - unfold names. rewrite length_map. apply nth_error_Some. rewrite Hi.
    discriminate.
  - unfold names. rewrite !nth_error_map, Hi, Hj. simpl. congruence.
Qed.

Lemma validate_duplicate_name_witness :
  validate sample_team_name roster_dup = Some DuplicateRider.
Proof.
  apply (validate_duplicate_name sample_team_name roster_dup 0 1
           (mkRider "r99" "R02" (Some 900) None) (sample_rider "02" 900));
    try reflexivity; vm_compute; try reflexivity; discriminate.
Defined.

(** Slots 1 and 2 share the name "R02", but with the empty team name
    [validate] reports [InvalidName]. *)
Lemma validate_duplicate_name_counterexample :
  nth_error (names roster_dup) 0 = nth_error (names roster_dup) 1
  /\ validate "" roster_dup = Some InvalidName.
Proof. vm_compute. split; reflexivity. Qed.

(** Claim C8 (amended): for the component's twelve slots and a valid team
    name, a roster with fewer than twelve slots filled fails with
    [IncompleteRoster]. *)
Theorem validate_incomplete_roster (teamName : string) (slots : list slot)
    (Hn : name_ok teamName = true)
    (Hlen : List.length slots = DEFAULT_SLOTS)
    (Hfew : (List.length (filled slots) < DEFAULT_SLOTS)%nat) :
  validate teamName slots = Some IncompleteRoster.
Proof.
  rewrite validate_check_order. unfold spec_checks. rewrite Hn.
  cbn [first_failure].
  destruct (all_filled slots) eqn:Hf; [|reflexivity].
  apply all_filled_length in Hf. lia.
Qed.

Lemma validate_incomplete_roster_witness :
  validate sample_team_name roster_11 = Some IncompleteRoster.
Proof.
  apply validate_incomplete_roster; vm_compute; reflexivity.
Defined.

(** The component's initial state: no slot filled, empty team name;
    [validate] reports [InvalidName]. *)
Lemma validate_incomplete_roster_counterexample :
  List.length (filled empty_roster) = 0%nat
  /\ validate "" empty_roster = Some InvalidName.
Proof. vm_compute. split; reflexivity. Qed.

(** ** Lemmas on the store operations *)

Lemma insert_team_ok (f : faults) (d d1 : db) (row t : team_row) :
  insert_team f d row = (Ok t, d1) ->
  has_team d (user_id row) (season_year row) = false
  /\ teams d1 = teams d ++ [t]
  /\ t_id t = next_id d /\ user_id t = user_id row
  /\ season_year t = season_year row /\ t_points t = t_points row
  /\ total_cost t = total_cost row
  /\ team_riders d1 = team_riders d /\ riders_tbl d1 = riders_tbl d.
Proof.
  unfold insert_team.
  destruct (team_insert_fault f); [discriminate|].
  destruct (has_team d (user_id row) (season_year row)) eqn:Hh; [discriminate|].
  intros H. inversion H; subst; clear H. simpl. repeat split; auto.
Qed.

Lemma insert_team_err (f : faults) (d d1 : db) (row : team_row) (e : db_error) :
  insert_team f d row = (Err e, d1) -> d1 = d.
Proof.
  unfold insert_team.
  destruct (team_insert_fault f); [congruence|].
  destruct (has_team d (user_id row) (season_year row)); congruence.
Qed.

Lemma insert_slots_teams (f : faults) (d : db) (rows : list slot_row) :
  teams (snd (insert_slots f d rows)) = teams d.
Proof. unfold insert_slots. destruct (slots_insert_fault f); reflexivity. Qed.

(** The effect of [createMyTeam] on the [teams] table: unchanged, or one
    row appended that the store accepted for its (user, season). *)
Lemma createMyTeam_teams (f : faults) (a : auth) (p : payload) (d : db) :
  teams (snd (createMyTeam f a p d)) = teams d
  \/ exists t, teams (snd (createMyTeam f a p d)) = teams d ++ [t]
       /\ has_team d (user_id t) (season_year t) = false
       /\ season_year t = season /\ t_points t = 0 /\ total_cost t = 0.
Proof.
  unfold createMyTeam. destruct a as [[u|]|]; simpl; auto.
  match goal with |- context [insert_team f d ?row] =>
    destruct (insert_team f d row) as [[t|e] d1] eqn:Hins end.
  - apply insert_team_ok in Hins as (Hh & Ht & _ & Hu & Hs & Hp & Hc & _).
    simpl in *. right. exists t.
    destruct (insert_slots _ _ _) as [[e|] d2] eqn:Hsl;
      pose proof (insert_slots_teams f d1
                    (resolve_all d1 (rider_inserts (t_id t) 0 (riders_ p)) (riders_ p)))
        as Hst; rewrite Hsl in Hst; simpl in *;
      rewrite Hst, Ht, Hu, Hs; repeat split; auto.
  - apply insert_team_err in Hins. subst. left. reflexivity.
Qed.

(** Claim C10: every team row [createMyTeam] adds has [season_year] 2025
    and [points] 0, whatever the payload, the caller and the store; the
    operation takes no season argument. *)
Theorem createMyTeam_season_2025_points_0 (f : faults) (a : auth)
    (p : payload) (d : db) :
  teams (snd (createMyTeam f a p d)) = teams d
  \/ exists t, teams (snd (createMyTeam f a p d)) = teams d ++ [t]
       /\ season_year t = 2025 /\ t_points t = 0.
Proof.
  destruct (createMyTeam_teams f a p d) as [H|(t & H & _ & Hs & Hp & _)];
    [left; exact H|right; exists t; auto].
Qed.

Lemma rider_inserts_length (tid k : Z) (es : list entry) :
  List.length (rider_inserts tid k es) = List.length es.
Proof. revert k; induction es; simpl; auto. Qed.

Lemma rider_inserts_nth (tid k : Z) (es : list entry) (i : nat) (e : entry) :
  nth_error es i = Some e ->
  nth_error (rider_inserts tid k es) i
  = Some (mkSlot tid (e_id e) (k + Z.of_nat i + 1)).
Proof.
  revert k i; induction es as [|e' tl IH]; intros k i H;
    destruct i as [|i]; simpl in *; try discriminate.
  - inversion H; subst. f_equal. f_equal. lia.
  - rewrite (IH (k + 1) i H). f_equal. f_equal. lia.
Qed.

Lemma resolve_all_length (d : db) (ins : list slot_row) (es : list entry) :
  List.length (resolve_all d ins es) = List.length ins.
Proof.
  revert es; induction ins as [|x tl IH]; intros [|e etl]; simpl; auto.
Qed.

Lemma resolve_all_nth (d : db) (ins : list slot_row) (es : list entry)
    (i : nat) (x : slot_row) (e : entry) :
  nth_error ins i = Some x -> nth_error es i = Some e ->
  nth_error (resolve_all d ins es) i = Some (resolve_one d x e).
Proof.
  revert es i; induction ins as [|x' tl IH]; intros [|e' etl] [|i] Hx He;
    simpl in *; try discriminate; auto.
  inversion Hx; inversion He; subst. reflexivity.
Qed.

Lemma lookup_rider_id_riders (d d' : db) (name : option string) :
  riders_tbl d' = riders_tbl d -> lookup_rider_id d' name = lookup_rider_id d name.
Proof. unfold lookup_rider_id. intros ->. reflexivity. Qed.

Lemma resolve_one_entry (d : db) (tid n : Z) (e : entry) :
  resolve_one d (mkSlot tid (e_id e) n) e = mkSlot tid (resolved_id d e) n.
Proof.
  unfold resolve_one, resolved_id. simpl.
  destruct (falsy (e_id e)); [|reflexivity].
  destruct (lookup_rider_id d (e_rider_name e)); reflexivity.
Qed.

(** Claim C9: when [createMyTeam] succeeds, the [team_riders] rows it
    stored are one per input entry, in input order: entry [i] (from 0)
    gives the row with slot [i + 1], the new team's id and the entry's
    rider id (resolved by name when missing); no reordering, no entry
    dropped or merged. *)
Theorem createMyTeam_slots_in_input_order (f : faults) (u : string)
    (p : payload) (d d' : db) (team : team_row)
    (H : createMyTeam f (Some (Some u)) p d = (Ok team, d')) :
  exists rows,
    team_riders d' = team_riders d ++ rows
    /\ List.length rows = List.length (riders_ p)
    /\ (forall i e, nth_error (riders_ p) i = Some e ->
        nth_error rows i = Some (mkSlot (t_id team) (resolved_id d e) (Z.of_nat i + 1))).
Proof.
  unfold createMyTeam in H.
  match type of H with context [insert_team f d ?row] =>
    destruct (insert_team f d row) as [[t|e] d1] eqn:Hins end;
    [|discriminate].
  apply insert_team_ok in Hins as (_ & _ & _ & _ & _ & _ & _ & Htr & Hr).
  unfold insert_slots in H.
  destruct (slots_insert_fault f); [discriminate|].
  inversion H; subst; clear H. simpl.
  eexists. split; [rewrite Htr; reflexivity|]. split.
  - rewrite resolve_all_length, rider_inserts_length. reflexivity.
  - intros i e He.
    rewrite (resolve_all_nth d1 _ _ i _ e (rider_inserts_nth (t_id team) 0 _ i e He) He).
    rewrite resolve_one_entry. unfold resolved_id.
    rewrite (lookup_rider_id_riders d d1 _ Hr). f_equal.
Qed.

Lemma createMyTeam_slots_in_input_order_witness :
  exists rows,
    team_riders (snd (createMyTeam no_faults (Some (Some "u1"%string))
                        sample_payload sample_db)) = team_riders sample_db ++ rows
    /\ List.length rows = 12%nat.
Proof.
  destruct (createMyTeam_slots_in_input_order no_faults "u1" sample_payload sample_db
              (snd (createMyTeam no_faults (Some (Some "u1"%string))
                      sample_payload sample_db))
              (mkTeam 1 "u1" sample_team_name 2025 0 0)
              ltac:(vm_compute; reflexivity)) as (rows & H1 & H2 & _).
  exists rows. split; [exact H1|]. rewrite H2. reflexivity.
Defined.

Lemma has_team_false_not_in (d : db) (u : string) (s : Z) :
  has_team d u s = false -> ~ In (u, s) (team_keys d).
Proof.
  unfold has_team, team_keys. intros Hh Hin.
  apply in_map_iff in Hin as (t & Ht & Hin).
  inversion Ht; subst.
  assert (existsb (fun t0 => String.eqb (user_id t0) (user_id t)
                             && Z.eqb (season_year t0) (season_year t)) (teams d)
          = true) as E.
  { apply existsb_exists. exists t. split; auto.
    rewrite String.eqb_refl, Z.eqb_refl. reflexivity. }
  congruence.
Qed.

Lemma createMyTeam_unique_teams (f : faults) (a : auth) (p : payload) (d : db) :
  unique_teams d -> unique_teams (snd (createMyTeam f a p d)).
Proof.
  unfold unique_teams, team_keys.
  destruct (createMyTeam_teams f a p d) as [H|(t & H & Hh & _)]; rewrite H;
    [auto|].
  intros Hnd. rewrite map_app. simpl.
  apply Permutation_NoDup with (l := (user_id t, season_year t)
    :: map (fun t0 => (user_id t0, season_year t0)) (teams d)).
  - apply Permutation_cons_append.
  - constructor; [|exact Hnd]. apply (has_team_false_not_in d _ _ Hh).
Qed.

(** Claim C3: with the store's uniqueness constraint on
    [teams (user_id, season_year)], a [createMyTeam] for a user who already
    has a team for the season is rejected with the conflict error (or the
    injected storage fault) and changes nothing; and every sequence of
    [createMyTeam] calls keeps at most one team per (user, season). *)
Theorem createMyTeam_one_team_per_user_season :
  (forall (f : faults) (u : string) (p : payload) (d : db),
     has_team d u season = true ->
     createMyTeam f (Some (Some u)) p d
     = (Err (DbError (if team_insert_fault f then StorageFault else Conflict)), d))
  /\ (forall (calls : list (faults * auth * payload)) (d : db),
        unique_teams d -> unique_teams (run calls d)).
Proof.
  split.
  - intros f u p d Hh. unfold createMyTeam, insert_team. simpl.
    destruct (team_insert_fault f); [reflexivity|]. rewrite Hh. reflexivity.
  - induction calls as [|[[f a] p] tl IH]; intros d Hd; simpl; auto.
    apply IH, createMyTeam_unique_teams, Hd.
Qed.

Lemma createMyTeam_one_team_per_user_season_witness :
  createMyTeam no_faults (Some (Some "u1"%string)) sample_payload
    (snd (createMyTeam no_faults (Some (Some "u1"%string)) sample_payload sample_db))
  = (Err (DbError Conflict),
     snd (createMyTeam no_faults (Some (Some "u1"%string)) sample_payload sample_db))
  /\ unique_teams (run [(no_faults, Some (Some "u1"%string), sample_payload);
                        (no_faults, Some (Some "u1"%string), sample_payload);
                        (no_faults, Some (Some "u2"%string), sample_payload)]
                       sample_db).
Proof.
  split.
  - apply (proj1 createMyTeam_one_team_per_user_season).
    vm_compute. reflexivity.
  - apply (proj2 createMyTeam_one_team_per_user_season).
    unfold unique_teams. vm_compute. constructor.
Defined.

(** Claim C1 (code defect): a storage fault on the [team_riders] insert,
    for a user with no team yet, makes [createMyTeam] throw, but the team
    row it inserted first stays in [teams] and [getMyTeam] then returns
    that team, with no riders. *)
Theorem createMyTeam_slot_fault_keeps_team_row :
  let res := createMyTeam (mkFaults false true) (Some (Some "u1"%string))
               sample_payload sample_db in
  teams sample_db = []
  /\ fst res = Err (DbError StorageFault)
  /\ teams (snd res) = [mkTeam 1 "u1" sample_team_name 2025 0 0]
  /\ team_riders (snd res) = []
  /\ getMyTeam (Some (Some "u1"%string)) (snd res)
     = Ok (Some (mkMyTeam 1 sample_team_name 0 0 [])).
Proof. vm_compute. repeat split. Qed.

(** Claim C2 (code defect): the second entry has no id and its name
    matches no rider. [createMyTeam] raises no unresolved-rider error: it
    succeeds and stores slot 2 with an undefined [rider_id]; and when the
    store rejects that [team_riders] insert, the team row stays anyway. *)
Theorem createMyTeam_unresolved_rider_not_rejected :
  lookup_rider_id sample_db (Some "Nobody"%string) = None
  /\ fst (createMyTeam no_faults (Some (Some "u1"%string))
            unresolved_payload sample_db)
     = Ok (mkTeam 1 "u1" sample_team_name 2025 0 0)
  /\ nth_error (team_riders (snd (createMyTeam no_faults (Some (Some "u1"%string))
                                    unresolved_payload sample_db))) 1
     = Some (mkSlot 1 None 2)
  /\ teams (snd (createMyTeam (mkFaults false true) (Some (Some "u1"%string))
                   unresolved_payload sample_db))
     = [mkTeam 1 "u1" sample_team_name 2025 0 0].
Proof. vm_compute. repeat split. Qed.

(** Claim C4 (code defect): twelve riders priced 900 pass [validate] with
    a computed total of 10800; after [createMyTeam] stores them, [getMyTeam]
    returns the same riders in the same order but a [totalPrice] of 0, the
    constant [total_cost] the insert writes. *)
Theorem createMyTeam_total_cost_not_stored :
  validate sample_team_name roster_900 = None
  /\ total roster_900 = 10800
  /\ match getMyTeam (Some (Some "u1"%string))
             (snd (createMyTeam no_faults (Some (Some "u1"%string))
                     (submit_payload sample_team_name roster_900) sample_db)) with
     | Ok (Some t) =>
         totalPrice t = 0
         /\ map (fun r => Some (rr_id r)) (mt_riders t)
            = map e_id (riders_ (submit_payload sample_team_name roster_900))
     | _ => False
     end.
Proof. vm_compute. repeat split. Qed.

(** ** The [.order(...)] model: permutation and sortedness *)

Lemma insert_by_perm {A : Type} (le : A -> A -> bool) (x : A) (l : list A) :
  Permutation (insert_by le x l) (x :: l).
Proof.
  induction l as [|y tl IH]; simpl; [reflexivity|].
  destruct (le x y); [reflexivity|].
  etransitivity; [apply perm_skip, IH|apply perm_swap].
Qed.

Lemma sort_by_perm {A : Type} (le : A -> A -> bool) (l : list A) :
  Permutation (sort_by le l) l.
Proof.
  induction l as [|x tl IH]; simpl; [reflexivity|].
  etransitivity; [apply insert_by_perm|apply perm_skip, IH].
Qed.

Section SortedInsert.
Context {A : Type} (le : A -> A -> bool).
Hypothesis le_total : forall x y, le x y = false -> le y x = true.

Lemma insert_by_hdrel (a x : A) (l : list A) :
  HdRel (fun u v => le u v = true) a l -> le a x = true ->
  HdRel (fun u v => le u v = true) a (insert_by le x l).
Proof.
  destruct l as [|b tl]; simpl; intros Hd Hax; [constructor; auto|].
  destruct (le x b); constructor; auto. inversion Hd; auto.
Qed.

Lemma insert_by_sorted (x : A) (l : list A) :
  Sorted (fun u v => le u v = true) l ->
  Sorted (fun u v => le u v = true) (insert_by le x l).
Proof.
  induction l as [|y tl IH]; simpl; intros Hs; [repeat constructor|].
  destruct (le x y) eqn:Hxy.
  - constructor; [exact Hs|constructor; exact Hxy].
  - inversion Hs; subst. constructor; [apply IH; auto|].
    apply insert_by_hdrel; auto.
Qed.

Lemma sort_by_sorted (l : list A) :
  Sorted (fun u v => le u v = true) (sort_by le l).
Proof.
  induction l as [|x tl IH]; simpl; [constructor|]. apply insert_by_sorted, IH.
Qed.

End SortedInsert.

Lemma Sorted_firstn {A : Type} (R : A -> A -> Prop) (n : nat) (l : list A) :
  Sorted R l -> Sorted R (firstn n l).
Proof.
  revert n; induction l as [|x tl IH]; intros [|n] Hs; simpl;
    try solve [constructor].
  inversion Hs; subst. constructor; [apply IH; auto|].
  destruct n as [|n], tl as [|y tl']; simpl; constructor.
  inversion H2; auto.
Qed.

Lemma Sorted_map {A B : Type} (R : A -> A -> Prop) (R' : B -> B -> Prop)
    (f : A -> B) (l : list A) :
  (forall x y, R x y -> R' (f x) (f y)) -> Sorted R l -> Sorted R' (map f l).
Proof.
  intros Hf. induction 1 as [|x tl Hs IH Hd]; simpl; constructor; auto.
  destruct Hd; simpl; constructor; auto.
Qed.

Lemma desc_by_total {A : Type} (key : A -> Z) (x y : A) :
  desc_by key x y = false -> desc_by key y x = true.
Proof. unfold desc_by. rewrite Z.leb_gt, Z.leb_le. lia. Qed.

Lemma asc_by_total {A : Type} (key : A -> Z) (x y : A) :
  asc_by key x y = false -> asc_by key y x = true.
Proof. unfold asc_by. rewrite Z.leb_gt, Z.leb_le. lia. Qed.

(** The first row of a sorted query dominates every row the query reads. *)
Lemma sort_by_head {A : Type} (le : A -> A -> bool)
    (le_total : forall x y, le x y = false -> le y x = true)
    (le_trans : forall x y z, le x y = true -> le y z = true -> le x z = true)
    (l : list A) (h : A) (tl : list A) :
  sort_by le l = h :: tl -> In h l /\ forall y, In y l -> y = h \/ le h y = true.
Proof.
  intros E. pose proof (sort_by_perm le l) as Hp. rewrite E in Hp.
  pose proof (sort_by_sorted le le_total l) as Hs. rewrite E in Hs.
  apply Sorted_StronglySorted in Hs;
    [|intros a b c; apply le_trans].
  apply StronglySorted_inv in Hs as [_ Hall].
  split.
  - apply (Permutation_in h Hp). left; reflexivity.
  - intros y Hy. apply (Permutation_in y (Permutation_sym Hp)) in Hy.
    destruct Hy as [<-|Hy]; [left; reflexivity|right].
    rewrite Forall_forall in Hall. apply Hall, Hy.
Qed.

Lemma sort_by_nil {A : Type} (le : A -> A -> bool) (l : list A) :
  sort_by le l = [] -> l = [].
Proof.
  intros E. pose proof (sort_by_perm le l) as Hp. rewrite E in Hp.
  apply Permutation_nil, Hp.
Qed.

Lemma in_firstn {A : Type} (n : nat) (l : list A) (x : A) :
  In x (firstn n l) -> In x l.
Proof.
  intros H. rewrite <- (firstn_skipn n l). apply in_or_app. left. exact H.
Qed.

Lemma sort_by_in {A : Type} (le : A -> A -> bool) (l : list A) (x : A) :
  In x (sort_by le l) -> In x l.
Proof. apply Permutation_in, sort_by_perm. Qed.

Lemma desc_by_trans {A : Type} (key : A -> Z) (x y z : A) :
  desc_by key x y = true -> desc_by key y z = true -> desc_by key x z = true.
Proof. unfold desc_by. rewrite !Z.leb_le. lia. Qed.

Lemma asc_by_trans {A : Type} (key : A -> Z) (x y z : A) :
  asc_by key x y = true -> asc_by key y z = true -> asc_by key x z = true.
Proof. unfold asc_by. rewrite !Z.leb_le. lia. Qed.

(** [getLatestRace] returns the race with the latest date on or before
    today, and null only when every race is after today. *)
Theorem getLatestRace_latest_past_race (today : Z) (races : list race)
    (results : list race_result) :
  match getLatestRace today races results with
  | Some lv =>
      exists r, In r races /\ race_date r <= today
        /\ lv_name lv = race_name r /\ lv_date lv = race_date r
        /\ forall r', In r' races -> race_date r' <= today ->
                      race_date r' <= race_date r
  | None => forall r, In r races -> today < race_date r
  end.
Proof.
  unfold getLatestRace.
  destruct (sort_by (desc_by race_date)
              (filter (fun r => race_date r <=? today) races)) as [|h tl] eqn:E.
  - apply sort_by_nil in E. simpl. intros r Hr.
    destruct (race_date r <=? today) eqn:Hd; [|apply Z.leb_gt in Hd; exact Hd].
    assert (In r (filter (fun r => race_date r <=? today) races)) as Hin
      by (apply filter_In; auto).
    rewrite E in Hin. destruct Hin.
  - simpl. apply sort_by_head in E as [Hh Hdom];
      [|apply desc_by_total|apply desc_by_trans].
    apply filter_In in Hh as [Hh Hle]. apply Z.leb_le in Hle.
    exists h. repeat split; auto.
    intros r' Hr' Hle'.
    destruct (Hdom r') as [->|Hd]; [apply filter_In; split; auto; apply Z.leb_le; auto|lia|].
    unfold desc_by in Hd. apply Z.leb_le in Hd. exact Hd.
Qed.

(** [getNextRace] returns the race with the earliest date strictly after
    today, and null only when no race is after today. *)
Theorem getNextRace_earliest_future_race (today : Z) (races : list race) :
  match getNextRace today races with
  | Some nv =>
      exists r, In r races /\ today < race_date r
        /\ nv_name nv = race_name r /\ nv_date nv = race_date r
        /\ forall r', In r' races -> today < race_date r' ->
                      race_date r <= race_date r'
  | None => forall r, In r races -> race_date r <= today
  end.
Proof.
  unfold getNextRace.
  destruct (sort_by (asc_by race_date)
              (filter (fun r => today <? race_date r) races)) as [|h tl] eqn:E.
  - apply sort_by_nil in E. simpl. intros r Hr.
    destruct (today <? race_date r) eqn:Hd; [|apply Z.ltb_ge in Hd; exact Hd].
    assert (In r (filter (fun r => today <? race_date r) races)) as Hin
      by (apply filter_In; auto).
    rewrite E in Hin. destruct Hin.
  - simpl. apply sort_by_head in E as [Hh Hdom];
      [|apply asc_by_total|apply asc_by_trans].
    apply filter_In in Hh as [Hh Hlt]. apply Z.ltb_lt in Hlt.
    exists h. repeat split; auto.
    intros r' Hr' Hlt'.
    destruct (Hdom r') as [->|Hd]; [apply filter_In; split; auto; apply Z.ltb_lt; auto|lia|].
    unfold asc_by in Hd. apply Z.leb_le in Hd. exact Hd.
Qed.


(** [getCurrentLeaderboard] lists at most 200 entries, in non-increasing
    points, each the entry of a 2025 team; when 2025 has at most 200 teams,
    every one of them is listed. *)
Theorem getCurrentLeaderboard_ranked (users : list (string * string)) (d : db) :
  (List.length (getCurrentLeaderboard users d) <= 200)%nat
  /\ Sorted (fun x y => be_points y <= be_points x) (getCurrentLeaderboard users d)
  /\ (forall e, In e (getCurrentLeaderboard users d) ->
        exists t, In t (teams d) /\ season_year t = 2025
          /\ e = mkBoardEntry (t_id t) (team_name t) (t_points t)
                              (owner_name users (user_id t)))
  /\ ((List.length (filter (fun t => Z.eqb (season_year t) 2025) (teams d))
        <= 200)%nat ->
      forall t, In t (teams d) -> season_year t = 2025 ->
        In (mkBoardEntry (t_id t) (team_name t) (t_points t)
                         (owner_name users (user_id t)))
           (getCurrentLeaderboard users d)).
Proof.
  unfold getCurrentLeaderboard. set (n200 := 200%nat).
  set (F := filter (fun t => Z.eqb (season_year t) season) (teams d)).
  split; [|split; [|split]].
  - rewrite length_map. apply (firstn_le_length n200).
  - apply (Sorted_map (fun a b => desc_by t_points a b = true)).
    + intros x y Hxy. unfold desc_by in Hxy. apply Z.leb_le in Hxy. exact Hxy.
    + apply (Sorted_firstn _ n200), sort_by_sorted, desc_by_total.
  - intros e He. apply in_map_iff in He as (t & <- & Ht).
    apply (in_firstn n200), sort_by_in in Ht. unfold F in Ht.
    apply filter_In in Ht as [Ht Hs]. apply Z.eqb_eq in Hs.
    exists t. auto.
  - intros Hlen t Ht Hs.
    rewrite firstn_all2.
    + apply in_map_iff. exists t. split; [reflexivity|].
      apply (Permutation_in t (Permutation_sym (sort_by_perm _ F))).
      unfold F. apply filter_In. split; auto. apply Z.eqb_eq, Hs.
    + rewrite (Permutation_length (sort_by_perm _ F)). exact Hlen.
Qed.

(** ** Single-row reads under key uniqueness *)

Lemma filter_nil_of {A : Type} (p : A -> bool) (l : list A) :
  (forall x, In x l -> p x = false) -> filter p l = [].
Proof.
  induction l as [|x tl IH]; simpl; intros H; auto.
  rewrite (H x (or_introl eq_refl)). apply IH. intros y Hy. apply H. right; auto.
Qed.


Lemma filter_key_in {A K : Type} (key : A -> K) (p : A -> bool) (l : list A) (x : A) :
  NoDup (map key l) -> (forall y, p y = true -> key y = key x) ->
  In x l -> p x = true -> filter p l = [x].
Proof.
  intros Hnd Hp Hin Hx. induction l as [|y tl IH]; [destruct Hin|]. simpl.
  apply NoDup_cons_iff in Hnd as [Hy Hnd].
  destruct Hin as [<-|Hin].
  - rewrite Hx. f_equal. apply filter_nil_of. intros z Hz.
    destruct (p z) eqn:Ez; auto. exfalso. apply Hy. rewrite <- (Hp z Ez).
    apply in_map, Hz.
  - destruct (p y) eqn:Ey; [|apply IH; auto].
    exfalso. apply Hy. rewrite (Hp y Ey). apply in_map, Hin.
Qed.


Lemma format_riders_missing (d : db) (trs : list slot_row) (tr : slot_row) :
  In tr trs -> embedded_rider d tr = None -> format_riders d trs = Err TypeError.
Proof.
  induction trs as [|x tl IH]; simpl; [tauto|]. intros [<-|Hin] Hn.
  - rewrite Hn. reflexivity.
  - destruct (embedded_rider d x); [|reflexivity].
    rewrite (IH Hin Hn). reflexivity.
Qed.

Lemma my_team_filter_key (u : string) :
  forall x y,
  String.eqb (user_id x) u && Z.eqb (season_year x) season = true ->
  String.eqb (user_id y) u && Z.eqb (season_year y) season = true ->
  (user_id x, season_year x) = (user_id y, season_year y).
Proof.
  intros x y Hx Hy.
  apply andb_true_iff in Hx as [Hx1 Hx2], Hy as [Hy1 Hy2].
  apply String.eqb_eq in Hx1, Hy1. apply Z.eqb_eq in Hx2, Hy2. congruence.
Qed.


(** When the user's team (unique for its (user, season)) has a
    [team_riders] row whose rider is missing, [getMyTeam] throws, so
    [MyTeamPage] shows the team builder again, and every new
    [createMyTeam] by that user is refused without changing the store. *)
Theorem myTeamPage_missing_rider_blocks_user (u : string) (d : db)
    (t : team_row) (tr : slot_row)
    (Hu : unique_teams d) (Ht : In t (teams d))
    (Hown : user_id t = u) (Hs : season_year t = 2025)
    (Htr : In tr (team_riders d)) (Htid : team_id tr = t_id t)
    (Hnone : embedded_rider d tr = None) :
  getMyTeam (Some (Some u)) d = Err TypeError
  /\ myTeamPageView (Some (Some u)) d = BuilderView
  /\ forall f p, createMyTeam f (Some (Some u)) p d
       = (Err (DbError (if team_insert_fault f then StorageFault else Conflict)), d).
Proof.
  assert (String.eqb (user_id t) u && Z.eqb (season_year t) season = true) as Hp
    by (rewrite Hown, Hs, String.eqb_refl; reflexivity).
  assert (getMyTeam (Some (Some u)) d = Err TypeError) as Hg.
  { unfold getMyTeam.
    rewrite (filter_key_in (fun t => (user_id t, season_year t)) _ (teams d) t Hu
               (fun y Hy => my_team_filter_key u y t Hy Hp) Ht Hp).
    rewrite (format_riders_missing d _ tr); [reflexivity| |exact Hnone].
    apply filter_In. split; auto. apply Z.eqb_eq, Htid. }
  split; [exact Hg|split].
  - unfold myTeamPageView. rewrite Hg. reflexivity.
  - intros f p. unfold createMyTeam, insert_team. cbn [user_id season_year].
    destruct (team_insert_fault f); [reflexivity|].
    replace (has_team d u season) with true; [reflexivity|].
    symmetry. apply existsb_exists. exists t. auto.
Qed.

(** For the team [getMyTeam] returns, [getTeamById] on its id (team ids
    being unique) returns the same id, name, points and riders, with the
    owner's display name. *)
Theorem getTeamById_agrees_with_getMyTeam (users : list (string * string))
    (a : auth) (d : db) (mt : my_team)
    (H : getMyTeam a d = Ok (Some mt))
    (Hids : NoDup (map t_id (teams d))) :
  exists u, a = Some (Some u)
    /\ getTeamById users (mt_id mt) d
       = Ok (Some (mkTeamView (mt_id mt) (mt_teamName mt) (owner_name users u)
                              (mt_points mt) (mt_riders mt))).
Proof.
  unfold getMyTeam in H. destruct a as [[u|]|]; try discriminate.
  exists u. split; [reflexivity|].
  destruct (filter _ (teams d)) as [|t [|t' rest]] eqn:Ef; try discriminate.
  assert (In t (filter (fun t => String.eqb (user_id t) u
                                 && Z.eqb (season_year t) season) (teams d))) as Hin
    by (rewrite Ef; left; reflexivity).
  apply filter_In in Hin as [Hin Hp].
  apply andb_true_iff in Hp as [Hp _]. apply String.eqb_eq in Hp.
  destruct (format_riders d _) as [rs|e] eqn:Hf; [|discriminate].
  injection H as <-. cbn [mt_id mt_teamName mt_points mt_riders].
  unfold getTeamById.
  rewrite (filter_key_in t_id (fun x => Z.eqb (t_id x) (t_id t)) (teams d) t Hids
             (fun y Hy => proj1 (Z.eqb_eq _ _) Hy) Hin (Z.eqb_refl _)).
  rewrite Hf, Hp. reflexivity.
Qed.

(** ** Creating then reading a team *)

Lemma resolve_all_riders (d d' : db) (ins : list slot_row) (es : list entry) :
  riders_tbl d' = riders_tbl d -> resolve_all d' ins es = resolve_all d ins es.
Proof.
  intros Hr. revert es; induction ins as [|x tl IH]; intros [|e etl]; simpl; auto.
  rewrite IH. unfold resolve_one. rewrite (lookup_rider_id_riders d d' _ Hr).
  reflexivity.
Qed.

Lemma createMyTeam_ok_shape (f : faults) (u : string) (p : payload)
    (d d' : db) (team : team_row) :
  createMyTeam f (Some (Some u)) p d = (Ok team, d') ->
  has_team d u season = false
  /\ team = mkTeam (next_id d) u (teamName_ p) season 0 0
  /\ teams d' = teams d ++ [team]
  /\ team_riders d' = team_riders d
       ++ resolve_all d (rider_inserts (next_id d) 0 (riders_ p)) (riders_ p)
  /\ riders_tbl d' = riders_tbl d.
Proof.
  unfold createMyTeam, insert_team, insert_slots. cbn [user_id season_year].
  destruct (team_insert_fault f); [discriminate|].
  destruct (has_team d u season); [discriminate|].
  destruct (slots_insert_fault f); [discriminate|].
  intros H. injection H as <- <-. repeat split; try reflexivity.
  cbn [team_riders]. f_equal. apply resolve_all_riders. reflexivity.
Qed.

Lemma rows_team_id (d : db) (tid k : Z) (es : list entry) (tr : slot_row) :
  In tr (resolve_all d (rider_inserts tid k es) es) -> team_id tr = tid.
Proof.
  revert k; induction es as [|e tl IH]; intros k; simpl; [tauto|].
  rewrite resolve_one_entry. intros [<-|H]; [reflexivity|]. apply (IH (k + 1) H).
Qed.

Lemma rows_rider_ids (d : db) (tid k : Z) (es : list entry) :
  map rider_id (resolve_all d (rider_inserts tid k es) es) = map (resolved_id d) es.
Proof.
  revert k; induction es as [|e tl IH]; intros k; simpl; [reflexivity|].
  rewrite resolve_one_entry. simpl. f_equal. apply IH.
Qed.

Lemma rows_slot_nos (d : db) (tid k : Z) (es : list entry) :
  map slot_no (resolve_all d (rider_inserts tid k es) es)
  = map (fun i => k + Z.of_nat i) (seq 1 (List.length es)).
Proof.
  revert k; induction es as [|e tl IH]; intros k; simpl; [reflexivity|].
  rewrite resolve_one_entry. simpl. f_equal.
  rewrite IH, <- (seq_shift _ 1), map_map.
  apply map_ext. intros i. lia.
Qed.





(** ** The builder's state and its submitted payload *)

Lemma setSlot_length (slots : list slot) (index : nat) (r : slot) :
  List.length (setSlot slots index r) = List.length slots.
Proof.
  revert index; induction slots as [|s tl IH]; intros [|i]; simpl; auto.
Qed.

Lemma setSlot_nth (slots : list slot) (index j : nat) (r : slot) :
  (index < List.length slots)%nat ->
  nth_error (setSlot slots index r) j
  = if Nat.eqb j index then Some r else nth_error slots j.
Proof.
  revert index j; induction slots as [|s tl IH]; intros [|i] [|j] H;
    cbn [setSlot nth_error Nat.eqb List.length] in *; try lia; auto.
  apply IH. lia.
Qed.

(** Starting from twelve empty slots, after any sequence of picks on
    rendered slots the builder still has twelve slots, and slot [i] holds
    the rider of the last pick made on it (null if it was never picked). *)
Theorem picks_state_last_pick (picks : list (nat * slot))
    (Hin : Forall (fun p => (fst p < DEFAULT_SLOTS)%nat) picks) :
  List.length (picks_state picks) = DEFAULT_SLOTS
  /\ forall i, (i < DEFAULT_SLOTS)%nat ->
       nth_error (picks_state picks) i
       = Some (match find (fun p => Nat.eqb (fst p) i) (rev picks) with
               | Some p => snd p
               | None => None
               end).
Proof.
  unfold picks_state.
  induction picks as [|p ps IH] using rev_ind.
  - cbn [fold_left rev find]. split; [apply repeat_length|]. intros i Hi.
    apply nth_error_repeat. exact Hi.
  - apply Forall_app in Hin as [Hps Hp]. inversion Hp as [|? ? Hp1]; subst.
    destruct (IH Hps) as [Hlen Hnth].
    rewrite fold_left_app. cbn [fold_left]. rewrite rev_app_distr. cbn [rev app find].
    split; [rewrite setSlot_length; exact Hlen|].
    intros i Hi. rewrite setSlot_nth by (rewrite Hlen; assumption).
    destruct (Nat.eqb i (fst p)) eqn:E.
    + apply Nat.eqb_eq in E. subst. rewrite Nat.eqb_refl. reflexivity.
    + rewrite Nat.eqb_sym, E. apply Hnth, Hi.
Qed.

Lemma existsb_none_false (s : list slot) (r : slot) :
  existsb (fun s => match s with None => true | Some _ => false end) s = false ->
  In r s -> exists r', r = Some r'.
Proof.
  intros H Hin. destruct r as [r'|]; [eauto|].
  assert (existsb (fun s : slot => match s with None => true | Some _ => false end) s
          = true) by (apply existsb_exists; exists None; auto).
  congruence.
Qed.


Lemma calcTotal_fold_right (l : list rider) (a : Z) :
  fold_left (fun sum r => sum + cost r) l a
  = a + fold_right (fun r acc => cost r + acc) 0 l.
Proof.
  revert a; induction l as [|r tl IH]; intros a; simpl; [lia|].
  rewrite IH. lia.
Qed.

Lemma fold_right_cost_perm (l l' : list rider) :
  Permutation l l' ->
  fold_right (fun r acc => cost r + acc) 0 l
  = fold_right (fun r acc => cost r + acc) 0 l'.
Proof. induction 1; simpl; lia. Qed.

Lemma filled_perm (s s' : list slot) :
  Permutation s s' -> Permutation (filled s) (filled s').
Proof.
  induction 1 as [|[x|] l l' _ IH|[x|] [y|] l|]; simpl;
    try constructor; eauto using Permutation_trans.
Qed.

Lemma total_perm (s s' : list slot) : Permutation s s' -> total s = total s'.
Proof.
  intros H. unfold total, calcTotal. rewrite !calcTotal_fold_right.
  f_equal. apply fold_right_cost_perm, filled_perm, H.
Qed.

Lemma existsb_perm {A : Type} (f : A -> bool) (l l' : list A) :
  Permutation l l' -> existsb f l = existsb f l'.
Proof.
  induction 1; simpl; try congruence.
  destruct (f x), (f y); reflexivity.
Qed.

Lemma NoDup_dedup_length (l : list string) :
  NoDup l -> List.length (dedup l) = List.length l.
Proof.
  induction 1 as [|x tl Hx _ IH]; simpl; [reflexivity|].
  destruct (existsb (String.eqb x) (dedup tl)) eqn:E.
  - apply existsb_exists in E as [y [Hy Exy]].
    apply String.eqb_eq in Exy. subst y. apply (proj1 (In_dedup x tl)) in Hy. contradiction.
  - simpl. rewrite IH. reflexivity.
Qed.

Lemma distinct_check_perm (s s' : list slot) :
  Permutation s s' ->
  Nat.eqb (List.length (dedup (names s))) (List.length (names s))
  = Nat.eqb (List.length (dedup (names s'))) (List.length (names s')).
Proof.
  intros H.
  assert (Hn : Permutation (names s) (names s')) by (apply Permutation_map, H).
  destruct (Nat.eqb (List.length (dedup (names s))) _) eqn:E1,
           (Nat.eqb (List.length (dedup (names s'))) _) eqn:E2; auto.
  - apply Nat.eqb_eq, dedup_length_NoDup in E1.
    rewrite NoDup_dedup_length in E2 by (eapply Permutation_NoDup; eauto).
    rewrite Nat.eqb_refl in E2. discriminate.
  - apply Nat.eqb_eq, dedup_length_NoDup in E2.
    rewrite NoDup_dedup_length in E1
      by (eapply Permutation_NoDup; [apply Permutation_sym; exact Hn|exact E2]).
    rewrite Nat.eqb_refl in E1. discriminate.
Qed.

(** [validate] only looks at which riders are picked, not at the slot they
    sit in: reordering the slots gives the same verdict and message. *)
Theorem validate_slot_order_irrelevant (teamName : string) (s s' : list slot)
    (H : Permutation s s') :
  validate teamName s = validate teamName s'.
Proof.
  unfold validate, remaining.
  rewrite (existsb_perm _ s s' H), (distinct_check_perm s s' H), (total_perm s s' H).
  reflexivity.
Qed.

Lemma validate_ok_filled (teamName : string) (s : list slot) :
  validate teamName s = None -> forall x, In x s -> exists r, x = Some r.
Proof.
  unfold validate.
  destruct (_ <? 2)%nat; [discriminate|].
  destruct (existsb _ s) eqn:Hf; [discriminate|].
  intros _ x Hx. apply (existsb_none_false s x Hf Hx).
Qed.

Lemma in_filled (s : list slot) (r : rider) : In (Some r) s -> In r (filled s).
Proof.
  induction s as [|[x|] tl IH]; simpl; [tauto| |]; intros [H|H];
    try (injection H as ->; left; reflexivity); try discriminate; auto.
Qed.

(** From a form [validate] accepts, whose picked riders all have a
    non-empty id, a successful [createMyTeam] stores the trimmed name and
    one rider row per slot, in slot order: row [k] holds the id of the
    rider picked in slot [k] and slot number [k], under the new team's id;
    no name lookup is made. *)
Theorem validate_submit_create_rows (teamName : string) (s : list slot)
    (f : faults) (u : string) (d d' : db) (team : team_row)
    (Hv : validate teamName s = None)
    (Hids : Forall (fun r => id r <> ""%string) (filled s))
    (Hc : createMyTeam f (Some (Some u)) (submit_payload teamName s) d = (Ok team, d')) :
  team_name team = trim teamName
  /\ exists rows,
       team_riders d' = team_riders d ++ rows
       /\ map rider_id rows = map (option_map id) s
       /\ map slot_no rows = map Z.of_nat (seq 1 (List.length s))
       /\ Forall (fun tr => team_id tr = t_id team) rows.
Proof.
  destruct (createMyTeam_ok_shape f u _ d d' team Hc) as (_ & Hteam & _ & Hrows & _).
  subst team. cbn [team_name t_id]. split; [reflexivity|].
  eexists; split; [exact Hrows|]. split; [|split].
  - rewrite rows_rider_ids. unfold submit_payload. cbn [riders_].
    rewrite map_map. apply map_ext_in. intros x Hx.
    destruct (validate_ok_filled teamName s Hv x Hx) as [r ->].
    unfold resolved_id. cbn [e_id falsy option_map].
    rewrite Forall_forall in Hids. specialize (Hids r (in_filled s r Hx)).
    destruct (String.eqb_spec (id r) ""); [contradiction|reflexivity].
  - rewrite rows_slot_nos. unfold submit_payload. cbn [riders_].
    rewrite length_map. apply map_ext. intros i. lia.
  - apply Forall_forall. intros tr Htr. eapply rows_team_id. exact Htr.
Qed.

(** ** The access-code login endpoint *)

Import VerifyCode.

(** Split [handler] into its [return]s. *)
Ltac handler_cases H :=
  repeat match type of H with
  | context [match ?o with Some _ => _ | None => _ end] =>
      let E := fresh "E" in destruct o eqn:E
  | context [if ?b then _ else _] =>
      let E := fresh "E" in destruct b eqn:E; try discriminate E
  | context [match ?l with [] => _ | _ :: _ => _ end] =>
      let E := fresh "E" in destruct l eqn:E
  end.

(** Every [return] but one answers on the store it was given; the one
    that inserts a user is the first login of an active code. *)
Lemma handler_store (f : vfaults) (e : env) (now_ms : Z) (req : request)
    (s s' : vstore) (r : response) :
  handler f e now_ms req s = (r, s') ->
  s' = s
  \/ exists a cr,
       accessCode req = Some a
       /\ filter (fun r => String.eqb (code r) (trim a)) (access_codes s) = [cr]
       /\ filter (fun u => Z.eqb (access_code_id u) (ac_id cr)) (users s) = []
       /\ s' = with_user s (new_user s cr (trim a))
       /\ (r, s') = sign_and_reply e now_ms (new_user s cr (trim a)) s'.
Proof.
  intros H. unfold handler in H. handler_cases H;
    try (injection H as _ <-; left; reflexivity);
    try (unfold sign_and_reply in H; destruct (negb (truthy (jwt_secret e)));
         injection H as _ <-; left; reflexivity).
  right. do 2 eexists. split; [reflexivity|]. split; [eassumption|].
  split; [eassumption|].
  unfold sign_and_reply in *. destruct (negb (truthy (jwt_secret e)));
    injection H as <- <-; split; reflexivity.
Qed.

Lemma handler_200_inv (f : vfaults) (e : env) (now_ms : Z) (req : request)
    (s s' : vstore) (b : body) :
  handler f e now_ms req s = ((200, b), s') ->
  exists a cr user,
    accessCode req = Some a
    /\ String.eqb (method req) "POST" = true
    /\ truthy (Some a) = true
    /\ truthy (supabase_url e) && truthy (service_key e) = true
    /\ code_lookup_fault f = false
    /\ filter (fun r => String.eqb (code r) (trim a)) (access_codes s) = [cr]
    /\ is_active cr = true
    /\ user_lookup_fault f = false
    /\ truthy (jwt_secret e) = true
    /\ b = TokenBody (mkClaims "authenticated" "authenticated" (u_id user)
                               (now_ms / 1000 + 60 * 60 * 24 * 7))
                     (u_id user) (display_name user) (profile_image_url user)
    /\ ((filter (fun u => Z.eqb (access_code_id u) (ac_id cr)) (users s) = [user]
         /\ s' = s)
        \/ (filter (fun u => Z.eqb (access_code_id u) (ac_id cr)) (users s) = []
            /\ user = new_user s cr (trim a)
            /\ s' = with_user s user)).
Proof.
  intros H. unfold handler in H. handler_cases H; try discriminate H;
    unfold sign_and_reply in H; destruct (truthy (jwt_secret e)) eqn:Ej;
    cbn [negb] in H; try discriminate H; injection H as <- <-;
    repeat match goal with
           | E : negb ?x = false |- _ => apply negb_false_iff in E
           end;
    do 2 eexists;
    match goal with
    | _ : filter _ (users s) = [] |- _ => eexists (mkUser _ _ _ _)
    | _ => eexists
    end;
    repeat (split; [eassumption || reflexivity|]);
    solve [ right; repeat split; eassumption || reflexivity
          | left; split; [eassumption|reflexivity] ].
Qed.

Lemma filter_single_In {A : Type} (p : A -> bool) (l : list A) (x : A) :
  filter p l = [x] -> In x l /\ p x = true.
Proof.
  intros H. apply filter_In. rewrite H. left. reflexivity.
Qed.

(** Every answer other than 200 leaves the store as it was, with one
    exception: when the JWT secret is missing, a code's first login has
    already inserted its user before the 500 is sent. *)
Theorem handler_error_keeps_store (f : vfaults) (e : env) (now_ms : Z)
    (req : request) (s s' : vstore) (r : response)
    (H : handler f e now_ms req s = (r, s'))
    (Hn : fst r <> 200) :
  s' = s
  \/ (r = (500, ErrorBody "Server configuration error: Missing JWT Secret")
      /\ truthy (jwt_secret e) = false
      /\ access_codes s' = access_codes s
      /\ exists u, users s' = users s ++ [u]).
Proof.
  destruct (handler_store f e now_ms req s s' r H)
    as [-> | (a & cr & Ha & Hc & Hu & Hs & Hr)]; [left; reflexivity|right].
  unfold sign_and_reply in Hr.
  destruct (truthy (jwt_secret e)) eqn:Ej; cbn [negb] in Hr;
    injection Hr as Hr; subst r; [cbn in Hn; congruence|].
  subst s'. repeat split. eexists. reflexivity.
Qed.

(** A 200 answer carries a token for the returned user id, with audience
    and role "authenticated" and expiry one week after the current second;
    that user is in the store afterwards, linked to an active access code
    equal to the trimmed code sent, with the display name and image
    returned. *)
Theorem handler_token_for_linked_user (f : vfaults) (e : env) (now_ms : Z)
    (req : request) (s s' : vstore) (tok : jwt_claims) (uid : Z)
    (dn : string) (pic : option string)
    (H : handler f e now_ms req s = ((200, TokenBody tok uid dn pic), s')) :
  tok = mkClaims "authenticated" "authenticated" uid (now_ms / 1000 + 604800)
  /\ exists a cr u,
       accessCode req = Some a
       /\ In cr (access_codes s') /\ code cr = trim a /\ is_active cr = true
       /\ In u (users s') /\ u_id u = uid /\ access_code_id u = ac_id cr
       /\ display_name u = dn /\ profile_image_url u = pic.
Proof.
  destruct (handler_200_inv f e now_ms req s s' _ H)
    as (a & cr & user & Ha & _ & _ & _ & _ & Hc & Hact & _ & _ & Hb & Hcase).
  injection Hb as -> -> -> ->. split; [reflexivity|].
  destruct (filter_single_In _ _ _ Hc) as [Hin Hcode].
  apply String.eqb_eq in Hcode.
  exists a, cr, user. split; [exact Ha|].
  destruct Hcase as [[Hu ->] | (Hu & -> & ->)].
  - destruct (filter_single_In _ _ _ Hu) as [Huin Hid]. apply Z.eqb_eq in Hid.
    repeat split; auto.
  - cbn. repeat split; auto. apply in_or_app. right. left. reflexivity.
Qed.

(** Logging in again with the same request, after a 200, answers 200 for
    the same user, with the same display name and image, and leaves the
    store unchanged: the first login creates the user, later ones find
    it. *)
Theorem handler_login_again_same_user (f : vfaults) (e : env) (now_ms : Z)
    (req : request) (s s' : vstore) (tok : jwt_claims) (uid : Z)
    (dn : string) (pic : option string)
    (H : handler f e now_ms req s = ((200, TokenBody tok uid dn pic), s')) :
  forall now_ms',
    handler f e now_ms' req s'
    = ((200, TokenBody (mkClaims "authenticated" "authenticated" uid
                                 (now_ms' / 1000 + 60 * 60 * 24 * 7))
                       uid dn pic), s').
Proof.
  intros now_ms'.
  destruct (handler_200_inv f e now_ms req s s' _ H)
    as (a & cr & user & Ha & Hm & Hta & Hcr & Hcl & Hc & Hact & Hul & Hj & Hb & Hcase).
  injection Hb as _ -> -> ->.
  assert (Hc' : filter (fun r => String.eqb (code r) (trim a)) (access_codes s') = [cr]
                /\ filter (fun u => Z.eqb (access_code_id u) (ac_id cr)) (users s')
                   = [user]).
  { destruct Hcase as [[Hu ->] | (Hu & -> & ->)]; [split; assumption|].
    cbn. split; [assumption|]. rewrite filter_app, Hu. cbn.
    rewrite Z.eqb_refl. reflexivity. }
  destruct Hc' as [Hc' Hu'].
  unfold handler. rewrite Hm, Ha, Hta, Hcr, Hcl. cbn [negb].
  rewrite Hc', Hact, Hul. cbn [negb]. rewrite Hu'.
  unfold sign_and_reply. rewrite Hj. reflexivity.
Qed.

(** The code is looked up trimmed: two non-empty codes with the same
    trimmed text get the same answer and the same store. *)
Theorem handler_trim_insensitive (f : vfaults) (e : env) (now_ms : Z)
    (req req' : request) (s : vstore) (a a' : string)
    (Hm : method req = method req')
    (Ha : accessCode req = Some a) (Ha' : accessCode req' = Some a')
    (Hne : a <> ""%string) (Hne' : a' <> ""%string)
    (Ht : trim a = trim a') :
  handler f e now_ms req s = handler f e now_ms req' s.
Proof.
  unfold handler. rewrite Hm, Ha, Ha'. cbn [truthy].
  destruct (String.eqb_spec a ""); [contradiction|].
  destruct (String.eqb_spec a' ""); [contradiction|].
  rewrite Ht. reflexivity.
Qed.



(** ** Instances of the theorems above *)




Lemma myTeamPage_missing_rider_blocks_user_witness :
  getMyTeam (Some (Some "u1"%string)) blocked_db = Err TypeError
  /\ myTeamPageView (Some (Some "u1"%string)) blocked_db = BuilderView
  /\ forall f p, createMyTeam f (Some (Some "u1"%string)) p blocked_db
       = (Err (DbError (if team_insert_fault f then StorageFault else Conflict)),
          blocked_db).
Proof.
  apply (myTeamPage_missing_rider_blocks_user "u1" blocked_db sample_team_row
           (mkSlot 1 None 2)).
  - vm_compute. constructor; [intros []|constructor].
  - vm_compute. left. reflexivity.
  - reflexivity.
  - reflexivity.
  - vm_compute. right. left. reflexivity.
  - reflexivity.
  - vm_compute. reflexivity.
Defined.

Lemma getTeamById_agrees_with_getMyTeam_witness :
  exists u, Some (Some "u1"%string) = Some (Some u)
    /\ getTeamById [("u1", "Gilbert")]%string (mt_id created_my_team) created_db
       = Ok (Some (mkTeamView (mt_id created_my_team) (mt_teamName created_my_team)
                   (owner_name [("u1", "Gilbert")]%string u)
                   (mt_points created_my_team) (mt_riders created_my_team))).
Proof.
  apply getTeamById_agrees_with_getMyTeam.
  - vm_compute. reflexivity.
  - vm_compute. constructor; [intros []|constructor].
Defined.


Lemma picks_state_last_pick_witness :
  List.length (picks_state sample_picks) = DEFAULT_SLOTS
  /\ nth_error (picks_state sample_picks) 3 = Some (Some (sample_rider "03" 900)).
Proof.
  assert (Hin : Forall (fun p => (fst p < DEFAULT_SLOTS)%nat) sample_picks).
  { apply Forall_forall. intros x Hx. apply Nat.ltb_lt. revert x Hx.
    apply forallb_forall. reflexivity. }
  destruct (picks_state_last_pick sample_picks Hin) as [Hl Hn].
  split; [exact Hl|]. rewrite Hn by (vm_compute; lia). reflexivity.
Defined.


Lemma validate_slot_order_irrelevant_witness :
  validate sample_team_name roster_dup = validate sample_team_name (rev roster_dup).
Proof.
  apply validate_slot_order_irrelevant. apply Permutation_rev.
Defined.

Lemma validate_submit_create_rows_witness :
  team_name sample_team_row = trim sample_team_name
  /\ exists rows,
       team_riders created_db = team_riders sample_db ++ rows
       /\ map rider_id rows = map (option_map id) roster_900
       /\ map slot_no rows = map Z.of_nat (seq 1 (List.length roster_900))
       /\ Forall (fun tr => team_id tr = t_id sample_team_row) rows.
Proof.
  apply (validate_submit_create_rows sample_team_name roster_900 no_faults "u1"
           sample_db created_db sample_team_row).
  - vm_compute. reflexivity.
  - apply Forall_forall. intros r Hr.
    pose proof (proj1 (forallb_forall (fun r => negb (String.eqb (id r) ""))
                         (filled roster_900)) eq_refl r Hr) as Hb.
    intros Heq. cbv beta in Hb. rewrite Heq in Hb. discriminate Hb.
  - vm_compute. reflexivity.
Defined.

Lemma handler_error_keeps_store_witness :
  let out := handler no_vfaults no_secret_env sample_now_ms login_req sample_vstore in
  snd out = sample_vstore
  \/ (fst out = (500, ErrorBody "Server configuration error: Missing JWT Secret")
      /\ truthy (jwt_secret no_secret_env) = false
      /\ access_codes (snd out) = access_codes sample_vstore
      /\ exists u, users (snd out) = users sample_vstore ++ [u]).
Proof.
  intros out. apply (handler_error_keeps_store no_vfaults no_secret_env sample_now_ms
                       login_req sample_vstore (snd out) (fst out)).
  - apply surjective_pairing.
  - vm_compute. discriminate.
Defined.

Lemma handler_token_for_linked_user_witness :
  let s' := snd (handler no_vfaults sample_env sample_now_ms login_req sample_vstore) in
  mkClaims "authenticated" "authenticated" 1 (1760000000 + 604800)
  = mkClaims "authenticated" "authenticated" 1 (sample_now_ms / 1000 + 604800)
  /\ exists a cr u,
       accessCode login_req = Some a
       /\ In cr (access_codes s') /\ code cr = trim a /\ is_active cr = true
       /\ In u (users s') /\ u_id u = 1 /\ access_code_id u = ac_id cr
       /\ display_name u = "GILBERT"%string /\ profile_image_url u = None.
Proof.
  intros s'. apply (handler_token_for_linked_user no_vfaults sample_env sample_now_ms
                      login_req sample_vstore s').
  vm_compute. reflexivity.
Defined.

Lemma handler_login_again_same_user_witness :
  let s' := snd (handler no_vfaults sample_env sample_now_ms login_req sample_vstore) in
  handler no_vfaults sample_env (sample_now_ms + 86400000) login_req s'
  = ((200, TokenBody (mkClaims "authenticated" "authenticated" 1
                               ((sample_now_ms + 86400000) / 1000 + 60 * 60 * 24 * 7))
                     1 "GILBERT" None), s').
Proof.
  intros s'. apply (handler_login_again_same_user no_vfaults sample_env sample_now_ms
                      login_req sample_vstore s'
                      (mkClaims "authenticated" "authenticated" 1
                                (sample_now_ms / 1000 + 60 * 60 * 24 * 7))).
  vm_compute. reflexivity.
Defined.

Lemma handler_trim_insensitive_witness :
  handler no_vfaults sample_env sample_now_ms login_req sample_vstore
  = handler no_vfaults sample_env sample_now_ms login_req_exact sample_vstore.
Proof.
  apply (handler_trim_insensitive no_vfaults sample_env sample_now_ms login_req
           login_req_exact sample_vstore "  GILBERT " "GILBERT");
    [reflexivity | reflexivity | reflexivity | discriminate | discriminate
    | vm_compute; reflexivity].
Defined.

